(** * borneo: the error taxonomy of [borneo/exception.py] and the signature
      provider exercised by [test/signature_provider.py]

    The first part embeds [src/borneo/exception.py]: the class hierarchy, the
    attribute state of an exception object, method resolution along the
    inheritance chain, and the methods [__str__], [ok_to_retry], [get_cause],
    [get_illegal_argument].  The second part models the signature cache and
    refresh engine ([borneo.iam.SignatureProvider]), whose implementation is
    not part of the sources at hand. *)

From Stdlib Require Import ZArith List String Ascii Bool Lia.
From Stdlib Require Import DecimalString DecimalZ.
Import ListNotations.

Local Open Scope string_scope.
Local Open Scope Z_scope.

(** ** Python values used by the module *)

(** The line feed written ['\n'] in the source. *)
Definition nl : string := String "010"%char EmptyString.

(** [str(n)] for a Python [int]. *)
Definition str_int (n : Z) : string := NilZero.string_of_int (Z.to_int n).

(** The characters ['0'] to ['9']. *)
Definition is_digit (a : ascii) : bool :=
  match a with
  | "0" | "1" | "2" | "3" | "4" | "5" | "6" | "7" | "8" | "9" => true
  | _ => false
  end%char.

Fixpoint all_digits (s : string) : bool :=
  match s with
  | EmptyString => true
  | String a r => is_digit a && all_digits r
  end.

(** ** The classes *)

Module Exception.

(** Every class defined in [exception.py], the built-in classes it derives
    from or can raise, and [ExternalError name] for an exception class defined
    elsewhere (a transport error, say) that shows up as a wrapped cause. *)
Inductive cls : Type :=
  | BaseException
  | PyException
  | RuntimeError
  | TypeError
  | AttributeError
  | AssertionError
  | ExternalError (name : string)
  | IllegalArgumentException
  | IllegalStateException
  | NoSQLException
  | QueryException
  | QueryStateException
  | AuthenticationException
  | IndexExistsException
  | IndexNotFoundException
  | InvalidAuthorizationException
  | RequestTimeoutException
  | ResourceLimitException
  | RetryableException
  | TableExistsException
  | TableNotFoundException
  | TableSizeException
  | UnauthorizedException
  | EvolutionLimitException
  | DeploymentException
  | IndexLimitException
  | KeySizeLimitException
  | RowSizeLimitException
  | TableLimitException
  | BatchOperationNumberLimitException
  | RequestSizeLimitException
  | SecurityInfoNotReadyException
  | SystemException
  | TableBusyException
  | ThrottlingException
  | OperationThrottlingException
  | ReadThrottlingException
  | WriteThrottlingException.

Definition cls_eq_dec (a b : cls) : {a = b} + {a <> b}.
Proof. decide equality; apply string_dec. Defined.

Definition cls_eqb (a b : cls) : bool := if cls_eq_dec a b then true else false.

(** The superclass written in the [class C(B):] header. *)
Definition base (c : cls) : option cls :=
  match c with
  | BaseException => None
  | PyException => Some BaseException
  | RuntimeError | TypeError | AttributeError | AssertionError
  | ExternalError _ => Some PyException
  | IllegalArgumentException | IllegalStateException
  | NoSQLException | QueryException => Some RuntimeError
  | QueryStateException => Some IllegalStateException
  | AuthenticationException | IndexExistsException | IndexNotFoundException
  | InvalidAuthorizationException | RequestTimeoutException
  | ResourceLimitException | RetryableException | TableExistsException
  | TableNotFoundException | TableSizeException
  | UnauthorizedException => Some NoSQLException
  | EvolutionLimitException | DeploymentException | IndexLimitException
  | KeySizeLimitException | RowSizeLimitException | TableLimitException
  | BatchOperationNumberLimitException
  | RequestSizeLimitException => Some ResourceLimitException
  | SecurityInfoNotReadyException | SystemException | TableBusyException
  | ThrottlingException => Some RetryableException
  | OperationThrottlingException | ReadThrottlingException
  | WriteThrottlingException => Some ThrottlingException
  end.

(** [c.__name__] *)
Definition class_name (c : cls) : string :=
  match c with
  | BaseException => "BaseException"
  | PyException => "Exception"
  | RuntimeError => "RuntimeError"
  | TypeError => "TypeError"
  | AttributeError => "AttributeError"
  | AssertionError => "AssertionError"
  | ExternalError name => name
  | IllegalArgumentException => "IllegalArgumentException"
  | IllegalStateException => "IllegalStateException"
  | NoSQLException => "NoSQLException"
  | QueryException => "QueryException"
  | QueryStateException => "QueryStateException"
  | AuthenticationException => "AuthenticationException"
  | IndexExistsException => "IndexExistsException"
  | IndexNotFoundException => "IndexNotFoundException"
  | InvalidAuthorizationException => "InvalidAuthorizationException"
  | RequestTimeoutException => "RequestTimeoutException"
  | ResourceLimitException => "ResourceLimitException"
  | RetryableException => "RetryableException"
  | TableExistsException => "TableExistsException"
  | TableNotFoundException => "TableNotFoundException"
  | TableSizeException => "TableSizeException"
  | UnauthorizedException => "UnauthorizedException"
  | EvolutionLimitException => "EvolutionLimitException"
  | DeploymentException => "DeploymentException"
  | IndexLimitException => "IndexLimitException"
  | KeySizeLimitException => "KeySizeLimitException"
  | RowSizeLimitException => "RowSizeLimitException"
  | TableLimitException => "TableLimitException"
  | BatchOperationNumberLimitException => "BatchOperationNumberLimitException"
  | RequestSizeLimitException => "RequestSizeLimitException"
  | SecurityInfoNotReadyException => "SecurityInfoNotReadyException"
  | SystemException => "SystemException"
  | TableBusyException => "TableBusyException"
  | ThrottlingException => "ThrottlingException"
  | OperationThrottlingException => "OperationThrottlingException"
  | ReadThrottlingException => "ReadThrottlingException"
  | WriteThrottlingException => "WriteThrottlingException"
  end.

(** The method resolution order of a class: the class, then its superclasses
    upwards (single inheritance throughout).  The longest chain has seven
    classes, [WriteThrottlingException .. BaseException]. *)
Fixpoint mro_from (fuel : nat) (c : cls) : list cls :=
  c :: match fuel with
       | O => []
       | S k => match base c with
                | Some b => mro_from k b
                | None => []
                end
       end.

Definition mro (c : cls) : list cls := mro_from 8 c.

(** [issubclass(c, d)] *)
Definition issubclass (c d : cls) : bool := existsb (cls_eqb d) (mro c).

(** Attribute lookup on the class: the first class of the resolution order
    whose body defines the method. *)
Fixpoint lookup {M : Type} (defines : cls -> option M) (l : list cls)
  : option M :=
  match l with
  | [] => None
  | c :: r => match defines c with
              | Some m => Some m
              | None => lookup defines r
              end
  end.

Definition resolve {M : Type} (defines : cls -> option M) (c : cls)
  : option M :=
  lookup defines (mro c).

(** ** Objects *)

(** [QueryException.Location]: the four private fields. *)
Record Location : Type := mkLocation {
  start_line : Z;
  start_column : Z;
  end_line : Z;
  end_column : Z
}.

(** An exception object: its class and the private attributes the
    initialisers of the module set.  [message] and [cause] stand for the
    name-mangled [__message] and [__cause] of the root class of the module the
    object derives from ([None] is Python's [None]); [timeout_ms] is set by
    [RequestTimeoutException] and [location] by [QueryException] only.  For a
    built-in or external class [message] is the single constructor argument. *)
#[warnings="-register-all"] Inductive exn : Type := Exn {
  class_of : cls;
  message : option string;
  cause : option exn;
  timeout_ms : Z;
  location : option Location
}.

(** The outcome of a call: a value, or an exception in flight. *)
Inductive result (A : Type) : Type :=
  | Return (a : A)
  | Raise (e : exn).

Arguments Return {A} a.
Arguments Raise {A} e.

Definition bind {A B : Type} (r : result A) (k : A -> result B) : result B :=
  match r with
  | Return a => k a
  | Raise e => Raise e
  end.

Notation "x <- r ;; k" := (bind r (fun x => k))
  (at level 61, r at next level, right associativity).

(** Objects of the built-in classes the interpreter raises by itself. *)
Definition builtin_error (c : cls) (msg : string) : exn :=
  Exn c (Some msg) None 0 None.

Definition no_attribute (self : exn) (attr : string) : exn :=
  builtin_error AttributeError
    ("'" ++ class_name (class_of self) ++ "' object has no attribute '"
         ++ attr ++ "'").

Definition type_error (msg : string) : exn := builtin_error TypeError msg.

(** [a + b] where [a] is a [str] and [b] an attribute that may hold [None]. *)
Definition str_add (a : string) (b : option string) : result string :=
  match b with
  | Some s => Return (a ++ s)
  | None => Raise (type_error "cannot concatenate 'str' and 'NoneType' objects")
  end.

(** [msg += s] where [msg] may hold [None] and [s] is a [str]. *)
Definition iadd (msg : option string) (s : string) : result (option string) :=
  match msg with
  | Some m => Return (Some (m ++ s))
  | None =>
      Raise (type_error
               "unsupported operand type(s) for +=: 'NoneType' and 'str'")
  end.

(** ** Initialisers

    A parameter with the default [None] is an [option]; a required [message]
    is a [str].  [k] is the class being instantiated, which the
    [super(...).__init__] chain leaves untouched. *)

Definition Location_init (sl sc el ec : Z) : result Location :=
  if (sl >=? 0) && (sc >=? 0) && (el >=? 0) && (ec >=? 0)
  then Return (mkLocation sl sc el ec)
  else Raise (builtin_error AssertionError EmptyString).

Definition IllegalArgumentException_init
    (message : option string) (cause : option exn) : exn :=
  Exn IllegalArgumentException message cause 0 None.

Definition IllegalStateException_init
    (k : cls) (message : option string) (cause : option exn) : exn :=
  Exn k message cause 0 None.

Definition NoSQLException_init
    (k : cls) (message : string) (cause : option exn) : exn :=
  Exn k (Some message) cause 0 None.

Definition QueryException_init
    (message : option string) (cause : option exn)
    (location : option Location) : exn :=
  Exn QueryException message cause 0 location.

Definition QueryStateException_init (message : string) : exn :=
  IllegalStateException_init QueryStateException
    (Some ("Unexpected state in query engine:" ++ nl ++ message)) None.

Definition AuthenticationException_init
    (message : string) (cause : option exn) : exn :=
  NoSQLException_init AuthenticationException message cause.

Definition RequestTimeoutException_init
    (message : string) (timeout_ms : Z) (cause : option exn) : exn :=
  let self := NoSQLException_init RequestTimeoutException message cause in
  Exn (class_of self) (Exception.message self) (Exception.cause self)
      timeout_ms (location self).

Definition ResourceLimitException_init (k : cls) (message : string) : exn :=
  NoSQLException_init k message None.

Definition RetryableException_init (k : cls) (message : string) : exn :=
  NoSQLException_init k message None.

Definition ThrottlingException_init (k : cls) (message : string) : exn :=
  RetryableException_init k message.

(** Instantiation [C(message)] with the message as the only argument, the
    other parameters, where a class has some, left at their defaults. *)
Definition new (k : cls) (message : string) : exn :=
  match k with
  | EvolutionLimitException | DeploymentException | IndexLimitException
  | KeySizeLimitException | RowSizeLimitException | TableLimitException
  | BatchOperationNumberLimitException | RequestSizeLimitException
  | ResourceLimitException => ResourceLimitException_init k message
  | OperationThrottlingException | ReadThrottlingException
  | WriteThrottlingException
  | ThrottlingException => ThrottlingException_init k message
  | SecurityInfoNotReadyException | SystemException | TableBusyException
  | RetryableException => RetryableException_init k message
  | QueryStateException => QueryStateException_init message
  | IndexExistsException | IndexNotFoundException
  | InvalidAuthorizationException | TableExistsException
  | TableNotFoundException | TableSizeException | UnauthorizedException
  | NoSQLException => NoSQLException_init k message None
  | AuthenticationException => AuthenticationException_init message None
  | RequestTimeoutException => RequestTimeoutException_init message 0 None
  | IllegalArgumentException =>
      IllegalArgumentException_init (Some message) None
  | IllegalStateException =>
      IllegalStateException_init IllegalStateException (Some message) None
  | QueryException => QueryException_init (Some message) None None
  | _ => builtin_error k message
  end.

(** ** Methods *)

(** [get_cause], defined alike by the three root classes. *)
Definition defines_get_cause (c : cls) : option unit :=
  match c with
  | IllegalArgumentException | IllegalStateException
  | NoSQLException => Some tt
  | _ => None
  end.

Definition get_cause (self : exn) : result (option exn) :=
  match resolve defines_get_cause (class_of self) with
  | Some _ => Return (cause self)
  | None => Raise (no_attribute self "get_cause")
  end.

(** [ok_to_retry]: [NoSQLException] defines it with body [return False],
    [RetryableException] overrides it with [return True]. *)
Definition defines_ok_to_retry (c : cls) : option (exn -> bool) :=
  match c with
  | NoSQLException => Some (fun _ => false)
  | RetryableException => Some (fun _ => true)
  | _ => None
  end.

Definition ok_to_retry (self : exn) : result bool :=
  match resolve defines_ok_to_retry (class_of self) with
  | Some body => Return (body self)
  | None => Raise (no_attribute self "ok_to_retry")
  end.

Definition get_timeout_ms (self : exn) : result Z :=
  if issubclass (class_of self) RequestTimeoutException
  then Return (timeout_ms self)
  else Raise (no_attribute self "get_timeout_ms").

Definition get_location (self : exn) : result (option Location) :=
  if issubclass (class_of self) QueryException
  then Return (location self)
  else Raise (no_attribute self "get_location").

(** The bodies of [__str__] found in the module, and the built-in one. *)
Inductive str_method : Type :=
  | BaseException_str
  | IllegalArgumentException_str
  | IllegalStateException_str
  | NoSQLException_str
  | QueryException_str
  | RequestTimeoutException_str.

Definition defines_str (c : cls) : option str_method :=
  match c with
  | BaseException => Some BaseException_str
  | IllegalArgumentException => Some IllegalArgumentException_str
  | IllegalStateException => Some IllegalStateException_str
  | NoSQLException => Some NoSQLException_str
  | QueryException => Some QueryException_str
  | RequestTimeoutException => Some RequestTimeoutException_str
  | _ => None
  end.

(** The built-in [str(x)] around a value returned by [x.__str__()]. *)
Definition must_be_str (r : result (option string)) : result string :=
  v <- r ;;
  match v with
  | Some s => Return s
  | None => Raise (type_error "__str__ returned non-string (type NoneType)")
  end.

(** [QueryException.__str__]: the text placed between ['Error:'] and the
    message. *)
Definition location_text (l : option Location) : string :=
  match l with
  | None => EmptyString
  | Some loc =>
      " at (" ++ str_int (start_line loc) ++ ", "
              ++ str_int (start_column loc) ++ ")"
  end.

(** [self.__str__()], dispatched on the class of [self]. *)
Fixpoint dunder_str (self : exn) : result (option string) :=
  match resolve defines_str (class_of self) with
  | Some IllegalArgumentException_str => Return (message self)
  | Some IllegalStateException_str => Return (message self)
  | Some NoSQLException_str => Return (message self)
  | Some QueryException_str =>
      s <- str_add ("Error:" ++ location_text (location self) ++ " ")
                   (message self) ;;
      Return (Some s)
  | Some RequestTimeoutException_str =>
      let msg := message self in
      msg <- (if negb (timeout_ms self =? 0)
              then iadd msg ("  Timeout: " ++ str_int (timeout_ms self)
                                           ++ " ms.")
              else Return msg) ;;
      match cause self with
      | Some c =>
          s <- must_be_str (dunder_str c) ;;
          iadd msg (nl ++ "Caused by: " ++ class_name (class_of c) ++ ": "
                       ++ s)
      | None => Return msg
      end
  | Some BaseException_str | None =>
      Return (Some (match message self with
                    | Some s => s
                    | None => EmptyString
                    end))
  end.

(** [str(self)] *)
Definition str (self : exn) : result string := must_be_str (dunder_str self).

(** [QueryException.get_illegal_argument]: the body is the single statement
    [raise IllegalArgumentException(str(self))]. *)
Definition get_illegal_argument (self : exn) : result unit :=
  if issubclass (class_of self) QueryException
  then s <- str self ;;
       Raise (IllegalArgumentException_init (Some s) None)
  else Raise (no_attribute self "get_illegal_argument").

(** The classes of the module below [RetryableException], the class itself
    included. *)
Definition retryable_classes : list cls :=
  [ RetryableException; SecurityInfoNotReadyException; SystemException;
    TableBusyException; ThrottlingException; OperationThrottlingException;
    ReadThrottlingException; WriteThrottlingException ].

(** The classes of the module that do not derive from [NoSQLException]. *)
Definition outside_NoSQLException : list cls :=
  [ IllegalArgumentException; IllegalStateException; QueryException;
    QueryStateException ].

(** [Location.__str__]: ['start_line:start_column-end_line:end_column']. *)
Definition Location_str (self : Location) : string :=
  str_int (start_line self) ++ ":" ++ str_int (start_column self) ++ "-"
    ++ str_int (end_line self) ++ ":" ++ str_int (end_column self).

(** The four getters of [Location]. *)
Definition get_start_line (self : Location) : Z := start_line self.
Definition get_start_column (self : Location) : Z := start_column self.
Definition get_end_line (self : Location) : Z := end_line self.
Definition get_end_column (self : Location) : Z := end_column self.



(** The classes whose initialiser takes the message alone. *)
Definition message_only_classes : list cls :=
  [ QueryStateException; IndexExistsException; IndexNotFoundException;
    InvalidAuthorizationException; ResourceLimitException;
    RetryableException; TableExistsException; TableNotFoundException;
    TableSizeException; UnauthorizedException; EvolutionLimitException;
    DeploymentException; IndexLimitException; KeySizeLimitException;
    RowSizeLimitException; TableLimitException;
    BatchOperationNumberLimitException; RequestSizeLimitException;
    SecurityInfoNotReadyException; SystemException; TableBusyException;
    ThrottlingException; OperationThrottlingException;
    ReadThrottlingException; WriteThrottlingException ].

End Exception.

(** ** The signature cache and refresh engine

    [borneo/iam.py] is not among the sources; [test/signature_provider.py]
    only calls it.  Everything in this module is written from the prose
    specification of the engine. *)

Module SignatureProvider.

Import Exception.

(** Modelled from the spec: the value a caller may hand over for a scalar
    option of the missing constructor [SignatureProvider.__init__] (the test
    passes integers, strings and dictionaries). *)
Inductive pyval : Type :=
  | PyInt (n : Z)
  | PyStr (s : string)
  | PyDict
  | PyNone.

(** Modelled from the spec: a region, named by its identifier; the region
    table itself is outside the sources. *)
Definition Region : Type := string.

(** Modelled from the spec: the [CredentialSource] of the missing constructor,
    "exactly one of" four forms.  The region found by the external credential
    resolver on a config-file profile or on a signer handle is carried along;
    the region of an explicit identity is the [region] constructor
    argument. *)
Inductive CredentialSource : Type :=
  | ExplicitIdentity (tenant_id user_id fingerprint private_key : pyval)
                     (pass_phrase : option pyval)
  | ConfigFileProfile (config_file profile_name : pyval)
                      (profile_region : option Region)
  | SignerHandle (handle_region : option Region)
  | InstanceIdentity.

(** Modelled from the spec: a well-formed scalar of the missing constructor is
    a non-empty string ("malformed scalars (empty strings, wrong types)"). *)
Definition nonempty_str (v : pyval) : bool :=
  match v with
  | PyStr (String _ _) => true
  | _ => false
  end.

(** Modelled from the spec: validation of the [CredentialSource] by the
    missing constructor. *)
Definition validate_source (src : CredentialSource) : bool :=
  match src with
  | ExplicitIdentity t u f k p =>
      nonempty_str t && nonempty_str u && nonempty_str f && nonempty_str k
      && match p with Some v => nonempty_str v | None => true end
  | ConfigFileProfile c p _ => nonempty_str c && nonempty_str p
  | SignerHandle _ => true
  | InstanceIdentity => true
  end.

(** Modelled from the spec: the check of [duration_seconds] by the missing
    constructor, "must satisfy 0 < duration <= 300 seconds". *)
Definition check_duration (v : pyval) : option Z :=
  match v with
  | PyInt d => if (0 <? d) && (d <=? 300) then Some d else None
  | _ => None
  end.

(** Modelled from the spec: the check of [refresh_ahead] by the missing
    constructor, "must satisfy 1 <= refresh_ahead < duration". *)
Definition check_refresh_ahead (d : Z) (v : pyval) : option Z :=
  match v with
  | PyInt r => if (1 <=? r) && (r <? d) then Some r else None
  | _ => None
  end.

(** Modelled from the spec: region resolution of the missing constructor,
    precedence (a) explicit argument, (b) signer handle, (c) config-file
    profile, (d) none. *)
Definition resolve_region (explicit : option Region) (src : CredentialSource)
  : option Region :=
  match explicit with
  | Some r => Some r
  | None =>
      match src with
      | SignerHandle handle_region => handle_region
      | ConfigFileProfile _ _ profile_region => profile_region
      | _ => None
      end
  end.

(** Modelled from the spec: the [CachedSignature] slot of the missing
    engine. *)
Record CachedSignature : Type := mkCached {
  value : string;
  computed_at : Z;
  expires_at : Z
}.

(** Modelled from the spec: the state of the missing engine: the
    [RefreshSchedule], the resolved region, the service URL once set, the cache
    slot, the instant of the next timer firing, the closed flag, and a count of
    the calls made to the Signing Primitive. *)
Record engine : Type := mkEngine {
  duration : Z;
  refresh_ahead : Z;
  region : option Region;
  service_url : option string;
  cache : option CachedSignature;
  timer : option Z;
  closed : bool;
  signings : nat
}.

(** Modelled from the spec: work of the missing constructor that leaves the
    calling thread: the credential resolver, the Signing Primitive, the
    background timer. *)
Inductive effect : Type :=
  | ResolveCredentials
  | Sign (at_instant : Z)
  | StartTimer (at_instant : Z).

Definition illegal_argument (msg : string) : exn :=
  IllegalArgumentException_init (Some msg) None.

(** Modelled from the spec: the missing constructor
    [SignatureProvider.__init__]: validation first, any violation raising
    [IllegalArgumentException]; then the credential resolver is consulted once.
    The second component lists the external work done. *)
Definition construct (src : CredentialSource) (explicit_region : option Region)
    (duration_seconds refresh_ahead : pyval) : result engine * list effect :=
  if negb (validate_source src)
  then (Raise (illegal_argument "malformed credential source"), [])
  else
    match check_duration duration_seconds with
    | None => (Raise (illegal_argument "duration_seconds out of range"), [])
    | Some d =>
        match check_refresh_ahead d refresh_ahead with
        | None => (Raise (illegal_argument "refresh_ahead out of range"), [])
        | Some r =>
            (Return (mkEngine d r (resolve_region explicit_region src)
                              None None None false 0),
             [ResolveCredentials])
        end
    end.

(** Modelled from the spec: the missing [set_service_url]. *)
Definition set_service_url (e : engine) (url : string) : engine :=
  mkEngine (duration e) (refresh_ahead e) (region e) (Some url)
           (cache e) (timer e) (closed e) (signings e).

(** Modelled from the spec: the missing [get_region]. *)
Definition get_region (e : engine) : option Region := region e.

(** Modelled from the spec: the missing [close]: stops the timer, destroys the
    cached signature, makes the engine unusable; closing twice is a no-op. *)
Definition close (e : engine) : engine :=
  mkEngine (duration e) (refresh_ahead e) (region e) (service_url e)
           None None true (signings e).

(** Modelled from the spec: the argument of the missing
    [get_authorization_string]: a recognized request, or anything else. *)
Inductive request : Type :=
  | Request (name : string)
  | NotARequest (v : pyval).

Section Engine.

(** The external Signing Primitive, a black box: the signature computed at an
    instant, or the failure it raises. *)
Variable sign : Z -> result string.

(** Modelled from the spec: a recomputation by the missing engine at instant
    [now]: the new value is stamped with the instant and expires one cache
    duration later; the next timer firing is [refresh_ahead] before that. *)
Definition store (e : engine) (now : Z) (s : string) : engine :=
  mkEngine (duration e) (refresh_ahead e) (region e) (service_url e)
           (Some (mkCached s now (now + duration e)))
           (Some (now + duration e - refresh_ahead e))
           (closed e) (S (signings e)).

(** Modelled from the spec: the background refresh of the missing engine when
    its timer fires at instant [f]: on success the new pair is swapped in and
    the timer rescheduled; on failure the previous value is retained and the
    refresh is tried again one refresh interval later. *)
Definition refresh (e : engine) (f : Z) : engine :=
  match sign f with
  | Return s => store e f s
  | Raise _ =>
      mkEngine (duration e) (refresh_ahead e) (region e) (service_url e)
               (cache e)
               (Some (f + (duration e - refresh_ahead e)))
               (closed e) (S (signings e))
  end.

(** Modelled from the spec: the timer of the missing engine firing, one
    firing after the other, until none is due at [now]. *)
Fixpoint advance (fuel : nat) (e : engine) (now : Z) : engine :=
  match fuel with
  | O => e
  | S k =>
      match timer e with
      | Some f =>
          if (f <=? now) && negb (closed e)
          then advance k (refresh e f) now
          else e
      | None => e
      end
  end.

(** Modelled from the spec: the state of the missing engine once the clock
    reads [now]; every firing moves the timer on by at least a second, which
    bounds the number of firings. *)
Definition elapse (e : engine) (now : Z) : engine :=
  match timer e with
  | Some f => advance (Z.to_nat (now - f + 1)) e now
  | None => e
  end.

(** Modelled from the spec: the missing [get_authorization_string], called at
    instant [now]: the service URL must have been set (checked first,
    "always ... regardless of cache state"), the request must be recognized,
    the engine must not be closed; then a cache hit while [now < expires_at],
    else an inline recomputation, whose failure surfaces as an
    [AuthenticationException] wrapping the cause. *)
Definition get_authorization_string (e : engine) (req : request) (now : Z)
  : result string * engine :=
  match service_url e with
  | None => (Raise (illegal_argument "service url is not set"), e)
  | Some _ =>
      match req with
      | NotARequest _ => (Raise (illegal_argument "not a request"), e)
      | Request _ =>
          if closed e
          then (Raise (IllegalStateException_init IllegalStateException
                         (Some "the provider is closed") None), e)
          else
            match cache e with
            | Some c =>
                if now <? expires_at c then (Return (value c), e)
                else
                  match sign now with
                  | Return s => (Return s, store e now s)
                  | Raise x =>
                      (Raise (AuthenticationException_init
                                "unable to sign the request" (Some x)), e)
                  end
            | None =>
                match sign now with
                | Return s => (Return s, store e now s)
                | Raise x =>
                    (Raise (AuthenticationException_init
                              "unable to sign the request" (Some x)), e)
                end
            end
      end
  end.

(** Modelled from the spec: a caller of the missing engine asking for the
    authorization string when the clock reads [now], the timer having fired
    as scheduled in the meantime. *)
Definition call (e : engine) (req : request) (now : Z)
  : result string * engine :=
  get_authorization_string (elapse e now) req now.

(** The cache slot [c] of [e] is what a recomputation leaves behind: stamped
    by the Signing Primitive at [computed_at], expiring one cache duration
    later, the timer set [refresh_ahead] before the expiry. *)
Definition holds (e : engine) (c : CachedSignature) : Prop :=
  cache e = Some c /\
  expires_at c = computed_at c + duration e /\
  sign (computed_at c) = Return (value c) /\
  timer e = Some (expires_at c - refresh_ahead e).

(** The states of a live engine when the clock reads [clock]: open, with a
    valid refresh schedule, and either nothing cached and no timer, or a
    cached signature computed in the past with its refresh scheduled. *)
Definition settled (e : engine) (clock : Z) : Prop :=
  closed e = false /\
  0 < refresh_ahead e < duration e /\
  match cache e with
  | None => timer e = None
  | Some c => holds e c /\ computed_at c <= clock
  end.

End Engine.

(** A Signing Primitive for the examples: the signature names the instant it
    was computed at. *)
Definition sign_instant (t : Z) : result string :=
  Return ("Signature " ++ str_int t)%string.

End SignatureProvider.

(** * Properties of the error taxonomy *)

Import Exception.

Lemma append_assoc (a b c : string) : ((a ++ b) ++ c = a ++ (b ++ c))%string.
Proof. induction a as [|x a IH]; simpl; [reflexivity | now rewrite IH]. Qed.

Ltac by_class e :=
  destruct e as [k ? ? ? ?]; destruct k; vm_compute.

Lemma ok_to_retry_resolved (e : exn) :
  issubclass (class_of e) NoSQLException = true ->
  ok_to_retry e = Return (issubclass (class_of e) RetryableException).
Proof. by_class e; intros H; try reflexivity; discriminate H. Qed.

Lemma issubclass_Retryable_iff (k : cls) :
  issubclass k RetryableException = true <-> In k retryable_classes.
Proof.
  split.
  - destruct k; vm_compute; intros H; try discriminate H; tauto.
  - intros H; repeat (destruct H as [<- | H]; [reflexivity |]); destruct H.
Qed.

Lemma ok_to_retry_missing (e : exn) :
  issubclass (class_of e) NoSQLException = false ->
  ok_to_retry e = Raise (no_attribute e "ok_to_retry").
Proof. by_class e; intros H; try reflexivity; discriminate H. Qed.

(** C1 (as amended).  For every object whose class derives from
    [NoSQLException], [ok_to_retry()] returns true exactly when the class is
    [RetryableException] or one of its subclasses
    ([SecurityInfoNotReadyException], [SystemException],
    [TableBusyException], [ThrottlingException] and its three subclasses) and
    false otherwise; two objects of the same class get the same answer
    whatever their message, cause or other state; on
    [IllegalArgumentException], [IllegalStateException], [QueryException] and
    [QueryStateException], which do not derive from [NoSQLException], there is
    no such method and the call raises [AttributeError]. *)
Theorem ok_to_retry_by_class (e : exn) :
  (issubclass (class_of e) NoSQLException = true ->
     (ok_to_retry e = Return true <-> In (class_of e) retryable_classes) /\
     (ok_to_retry e = Return false <-> ~ In (class_of e) retryable_classes)) /\
  (In (class_of e) outside_NoSQLException ->
     exists err, ok_to_retry e = Raise err /\ class_of err = AttributeError) /\
  (forall e', class_of e' = class_of e -> ok_to_retry e' = ok_to_retry e).
Proof.
  split; [| split].
  - intros H. rewrite (ok_to_retry_resolved e H).
    pose proof (issubclass_Retryable_iff (class_of e)) as I.
    destruct (issubclass (class_of e) RetryableException); split; split;
      intros X; try reflexivity; try discriminate X.
    + now apply I.
    + exfalso. apply X. now apply I.
    + exfalso. apply I in X. discriminate X.
    + intros Y. apply I in Y. discriminate Y.
  - intros H. exists (no_attribute e "ok_to_retry"). split; [| reflexivity].
    apply ok_to_retry_missing.
    repeat (destruct H as [<- | H]; [reflexivity |]); destruct H.
  - intros e' H. unfold ok_to_retry. rewrite H.
    destruct e as [k ? ? ? ?], e' as [k' ? ? ? ?]. simpl in *. subst k'.
    unfold no_attribute. simpl.
    destruct k; reflexivity.
Qed.

Lemma ok_to_retry_by_class_witness :
  ok_to_retry (new TableBusyException "table is busy") = Return true /\
  ok_to_retry (new TableNotFoundException "no such table") = Return false /\
  (exists err,
     ok_to_retry (QueryStateException_init "bad plan") = Raise err /\
     class_of err = AttributeError).
Proof.
  split; [| split].
  - destruct (ok_to_retry_by_class (new TableBusyException "table is busy"))
      as [H _].
    destruct (H eq_refl) as [[_ T] _]. apply T. vm_compute. tauto.
  - destruct (ok_to_retry_by_class (new TableNotFoundException "no such table"))
      as [H _].
    destruct (H eq_refl) as [_ [_ F]]. apply F. vm_compute.
    intros X.
    repeat (destruct X as [X | X]; [discriminate X |]). exact X.
  - destruct (ok_to_retry_by_class (QueryStateException_init "bad plan"))
      as [_ [H _]].
    apply H. vm_compute. tauto.
Defined.

(** C1, counterexample.  [IllegalArgumentException] is a member of the
    taxonomy outside the retryable set, yet [ok_to_retry()] on it does not
    return false: the class has no such method. *)
Lemma ok_to_retry_IllegalArgument_not_false :
  ok_to_retry (IllegalArgumentException_init (Some "bad argument") None)
    <> Return false /\
  ok_to_retry (IllegalArgumentException_init (Some "bad argument") None)
    = Raise (builtin_error AttributeError
       "'IllegalArgumentException' object has no attribute 'ok_to_retry'").
Proof. split; [discriminate | reflexivity]. Qed.

(** C2 (as amended).  [ok_to_retry()] on an [AuthenticationException] returns
    false whatever cause it wraps, a retryable one included. *)
Theorem AuthenticationException_not_retryable
    (msg : string) (c : option exn) :
  ok_to_retry (AuthenticationException_init msg c) = Return false.
Proof. reflexivity. Qed.

(** C2, counterexample.  An [AuthenticationException] wrapping a
    [SecurityInfoNotReadyException]: the cause is retryable, the wrapper is
    not. *)
Lemma AuthenticationException_retryable_cause :
  ok_to_retry (new SecurityInfoNotReadyException "security info not ready")
    = Return true /\
  ok_to_retry
    (AuthenticationException_init "authentication failed"
       (Some (new SecurityInfoNotReadyException "security info not ready")))
    = Return false.
Proof. split; reflexivity. Qed.

(** [str()] of a [QueryException] that holds a message. *)
Lemma str_QueryException
    (msg : string) (c : option exn) (loc : option Location) :
  str (QueryException_init (Some msg) c loc)
  = Return (("Error:" ++ location_text loc ++ " ") ++ msg)%string.
Proof. reflexivity. Qed.

Lemma get_illegal_argument_QueryException
    (msg : string) (c : option exn) (loc : option Location) :
  get_illegal_argument (QueryException_init (Some msg) c loc)
  = Raise (IllegalArgumentException_init
             (Some (("Error:" ++ location_text loc ++ " ") ++ msg)%string)
             None).
Proof. reflexivity. Qed.

(** C3 (as amended).  For every [QueryException] built with a string message,
    the conversion used at the API boundary, [get_illegal_argument], raises
    an [IllegalArgumentException], never the [QueryException] itself; when a
    location is attached, its start line and start column appear in the
    message of that [IllegalArgumentException] as [(line, column)], and when
    none is attached the message is ['Error: '] followed by the original
    message. *)
Theorem QueryException_surfaces_as_IllegalArgument
    (msg : string) (c : option exn) (loc : option Location) :
  exists iae,
    get_illegal_argument (QueryException_init (Some msg) c loc) = Raise iae /\
    class_of iae = IllegalArgumentException /\
    class_of iae <> QueryException /\
    match loc with
    | Some l =>
        exists before after,
          message iae
          = Some (before ++ "(" ++ str_int (start_line l) ++ ", "
                         ++ str_int (start_column l) ++ ")" ++ after)%string
    | None => message iae = Some ("Error: " ++ msg)%string
    end.
Proof.
  eexists. split; [apply get_illegal_argument_QueryException |].
  split; [reflexivity |]. split; [discriminate |].
  destruct loc as [l|].
  - exists "Error: at "%string, (" " ++ msg)%string.
    unfold IllegalArgumentException_init, location_text. cbn [message].
    f_equal. rewrite !append_assoc. reflexivity.
  - reflexivity.
Qed.

(** C3, counterexample.  [QueryException()] takes the default message [None];
    rendering it fails on ['...' + None], so the conversion raises a
    [TypeError] and no [IllegalArgumentException]. *)
Lemma QueryException_default_message_TypeError :
  get_illegal_argument (QueryException_init None None None)
  = Raise (builtin_error TypeError
             "cannot concatenate 'str' and 'NoneType' objects") /\
  ~ (exists iae,
       get_illegal_argument (QueryException_init None None None) = Raise iae /\
       class_of iae = IllegalArgumentException).
Proof.
  split; [reflexivity |].
  intros [iae [H K]]. vm_compute in H. injection H as <-. discriminate K.
Qed.

(** C10 (as amended).  [get_illegal_argument] never returns a value to its
    caller, on any object; for a [QueryException] built with a string message
    it raises an [IllegalArgumentException] whose rendering equals the
    rendering of the [QueryException], which is ['Error:'], then
    [' at (start_line, start_column)'] when a location is attached, then a
    blank and the message. *)
Theorem get_illegal_argument_never_returns :
  (forall (q : exn) (v : unit), get_illegal_argument q <> Return v) /\
  (forall (msg : string) (c : option exn) (loc : option Location),
     exists s,
       str (QueryException_init (Some msg) c loc) = Return s /\
       s = ("Error:"
              ++ match loc with
                 | Some l => " at (" ++ str_int (start_line l) ++ ", "
                                     ++ str_int (start_column l) ++ ")"
                 | None => EmptyString
                 end
              ++ " " ++ msg)%string /\
       get_illegal_argument (QueryException_init (Some msg) c loc)
       = Raise (IllegalArgumentException_init (Some s) None) /\
       str (IllegalArgumentException_init (Some s) None) = Return s).
Proof.
  split.
  - intros q v. unfold get_illegal_argument.
    destruct (issubclass (class_of q) QueryException); [| discriminate].
    destruct (str q); simpl; discriminate.
  - intros msg c loc. eexists. split; [apply str_QueryException |].
    split; [| split; reflexivity].
    destruct loc as [l|]; unfold location_text; rewrite !append_assoc;
      reflexivity.
Qed.

(** C10, counterexample.  A [QueryException] with a location and the default
    message [None]: its rendering does not exist ([str] raises [TypeError]),
    and what [get_illegal_argument] raises is that [TypeError], not an
    [IllegalArgumentException]. *)
Lemma get_illegal_argument_located_no_message :
  str (QueryException_init None None (Some (mkLocation 1 7 1 12)))
  = Raise (builtin_error TypeError
             "cannot concatenate 'str' and 'NoneType' objects") /\
  get_illegal_argument
    (QueryException_init None None (Some (mkLocation 1 7 1 12)))
  = Raise (builtin_error TypeError
             "cannot concatenate 'str' and 'NoneType' objects").
Proof. split; reflexivity. Qed.

(** C4 (as amended).  The rendering of a [RequestTimeoutException] is its
    message, followed by ['  Timeout: <timeout_ms> ms.'] when [timeout_ms] is
    not 0 (nothing is added for 0, the default), followed, when a cause is
    wrapped and renders as a string, by a line feed, ['Caused by: '], the
    class name of the cause, [': '] and the rendering of the cause. *)
Theorem RequestTimeoutException_str_appends (msg : string) (t : Z) :
  str (RequestTimeoutException_init msg t None)
  = Return (if (t =? 0)%Z then msg
            else msg ++ "  Timeout: " ++ str_int t ++ " ms.")%string /\
  (forall (c : exn) (s : string),
     str c = Return s ->
     str (RequestTimeoutException_init msg t (Some c))
     = Return ((if (t =? 0)%Z then msg
                else msg ++ "  Timeout: " ++ str_int t ++ " ms.")
               ++ nl ++ "Caused by: " ++ class_name (class_of c) ++ ": "
               ++ s)%string).
Proof.
  split.
  - unfold str, RequestTimeoutException_init. simpl.
    destruct (t =? 0); reflexivity.
  - intros c s H. unfold str in *.
    unfold RequestTimeoutException_init. simpl dunder_str.
    destruct (dunder_str c) as [[s'|]|x]; simpl in H; try discriminate H.
    injection H as ->.
    destruct (t =? 0); reflexivity.
Qed.

Lemma RequestTimeoutException_str_appends_witness :
  str (RequestTimeoutException_init "Request timed out" 5000
         (Some (builtin_error (ExternalError "ConnectionError") "refused")))
  = Return ("Request timed out  Timeout: 5000 ms." ++ nl
            ++ "Caused by: ConnectionError: refused")%string.
Proof.
  destruct (RequestTimeoutException_str_appends "Request timed out" 5000)
    as [_ H].
  exact (H (builtin_error (ExternalError "ConnectionError") "refused")
           "refused"%string eq_refl).
Defined.

(** C4, counterexample.  With the default [timeout_ms=0] and no cause the
    rendering is the bare message: no timeout value is appended. *)
Lemma RequestTimeoutException_zero_timeout_str :
  str (RequestTimeoutException_init "Request timed out" 0 None)
  = Return "Request timed out"%string.
Proof. reflexivity. Qed.

(** * Properties of the signature cache and refresh engine *)

Import SignatureProvider.

(** C5.  With a well-formed credential source, construction succeeds for
    every pair of integers [0 < refresh_ahead < duration <= 300], having
    consulted the credential resolver and nothing else (no timer started, no
    signature computed); for every other pair of arguments, non-integers,
    zero, negative values and a duration above 300 included, construction
    raises [IllegalArgumentException] and no external work has been done. *)
Theorem construct_checks_duration_and_refresh_ahead
    (src : CredentialSource) (rg : option Region) :
  (forall d r : Z,
     validate_source src = true -> 0 < r < d /\ d <= 300 ->
     exists e,
       construct src rg (PyInt d) (PyInt r) = (Return e, [ResolveCredentials])
       /\ duration e = d /\ refresh_ahead e = r
       /\ timer e = None /\ cache e = None /\ signings e = 0%nat) /\
  (forall dv rv : pyval,
     ~ (exists d r : Z, dv = PyInt d /\ rv = PyInt r /\ 0 < r < d /\ d <= 300) ->
     exists iae,
       construct src rg dv rv = (Raise iae, [])
       /\ class_of iae = IllegalArgumentException).
Proof.
  split.
  - intros d r V R. unfold construct. rewrite V. simpl.
    replace ((0 <? d) && (d <=? 300)) with true
      by (symmetry; apply andb_true_iff; split;
          [apply Z.ltb_lt | apply Z.leb_le]; lia).
    simpl.
    replace ((1 <=? r) && (r <? d)) with true
      by (symmetry; apply andb_true_iff; split;
          [apply Z.leb_le | apply Z.ltb_lt]; lia).
    eexists. repeat split.
  - intros dv rv N. unfold construct.
    destruct (validate_source src); simpl;
      [| eexists; split; reflexivity].
    destruct dv as [d| | |]; simpl; try (eexists; split; reflexivity).
    destruct ((0 <? d) && (d <=? 300)) eqn:D;
      [| eexists; split; reflexivity].
    destruct rv as [r| | |]; simpl; try (eexists; split; reflexivity).
    destruct ((1 <=? r) && (r <? d)) eqn:R;
      [| eexists; split; reflexivity].
    exfalso. apply N. exists d, r.
    apply andb_true_iff in D, R.
    destruct D as [D1 D2], R as [R1 R2].
    apply Z.ltb_lt in D1, R2. apply Z.leb_le in D2, R1.
    repeat split; try reflexivity; lia.
Qed.

Lemma construct_checks_duration_and_refresh_ahead_witness :
  (exists e,
     construct (SignerHandle None) None (PyInt 5) (PyInt 1)
     = (Return e, [ResolveCredentials])
     /\ duration e = 5 /\ refresh_ahead e = 1
     /\ timer e = None /\ cache e = None /\ signings e = 0%nat) /\
  (exists iae,
     construct (SignerHandle None) None (PyInt 301) (PyInt 1)
     = (Raise iae, [])
     /\ class_of iae = IllegalArgumentException).
Proof.
  destruct (construct_checks_duration_and_refresh_ahead
              (SignerHandle None) None) as [A B].
  split.
  - apply A; [reflexivity | lia].
  - apply B. intros [d [r [D [_ [_ R]]]]]. injection D as <-. lia.
Defined.

Section EngineFacts.

Variable sign : Z -> result string.

Lemma refresh_service_url (e : engine) (f : Z) :
  service_url (refresh sign e f) = service_url e.
Proof. unfold refresh. destruct (sign f); reflexivity. Qed.

Lemma advance_service_url (fuel : nat) :
  forall (e : engine) (now : Z),
    service_url (advance sign fuel e now) = service_url e.
Proof.
  induction fuel as [|k IH]; intros e now; simpl; [reflexivity |].
  destruct (timer e) as [f|]; [| reflexivity].
  destruct ((f <=? now) && negb (closed e)); [| reflexivity].
  rewrite IH. apply refresh_service_url.
Qed.

Lemma elapse_service_url (e : engine) (now : Z) :
  service_url (elapse sign e now) = service_url e.
Proof.
  unfold elapse. destruct (timer e); [apply advance_service_url | reflexivity].
Qed.

(** C6.  On an engine whose service URL has not been set,
    [get_authorization_string] raises [IllegalArgumentException] for every
    request and at every instant, whatever the cache slot, the timer and the
    closed flag hold. *)
Theorem get_authorization_string_before_set_service_url
    (e : engine) (req : request) (now : Z) :
  service_url e = None ->
  exists iae,
    fst (call sign e req now) = Raise iae /\
    class_of iae = IllegalArgumentException /\
    fst (get_authorization_string sign e req now) = Raise iae.
Proof.
  intros U. unfold call, get_authorization_string.
  rewrite elapse_service_url, U. simpl.
  eexists. repeat split.
Qed.

(** C9.  The region of a constructed engine: the explicit [region] argument
    when there is one, whatever region the credential source carries;
    otherwise the region of the signer handle or of the config-file profile;
    and none when neither the argument nor the source supplies one. *)
Theorem get_region_precedence
    (src : CredentialSource) (rg : option Region) (dv rv : pyval)
    (e : engine) :
  fst (construct src rg dv rv) = Return e ->
  (forall r, rg = Some r -> get_region e = Some r) /\
  (rg = None ->
     (forall h, src = SignerHandle h -> get_region e = h) /\
     (forall c p pr, src = ConfigFileProfile c p pr -> get_region e = pr) /\
     (forall t u f k p, src = ExplicitIdentity t u f k p ->
                        get_region e = None) /\
     (src = InstanceIdentity -> get_region e = None)).
Proof.
  unfold construct.
  destruct (validate_source src); simpl; [| discriminate].
  destruct (check_duration dv) as [d|]; simpl; [| discriminate].
  destruct (check_refresh_ahead d rv) as [r|]; simpl; [| discriminate].
  intros H. injection H as <-. unfold get_region. simpl.
  split.
  - intros r' ->. reflexivity.
  - intros ->. repeat split; intros; subst src; reflexivity.
Qed.

End EngineFacts.

Lemma get_authorization_string_before_set_service_url_witness :
  exists iae,
    fst (call sign_instant
           (mkEngine 5 1 None None (Some (mkCached "Signature 0" 0 5))
                     (Some 4) false 1)
           (Request "TableRequest") 2)
    = Raise iae /\
    class_of iae = IllegalArgumentException.
Proof.
  destruct (get_authorization_string_before_set_service_url sign_instant
              (mkEngine 5 1 None None (Some (mkCached "Signature 0" 0 5))
                        (Some 4) false 1)
              (Request "TableRequest") 2 eq_refl) as [iae [H [K _]]].
  exists iae. split; assumption.
Defined.

Lemma get_region_precedence_witness :
  get_region
    (mkEngine 5 1 (Some "us-phoenix-1"%string) None None None false 0)
  = Some "us-phoenix-1"%string.
Proof.
  destruct (get_region_precedence
              (ConfigFileProfile (PyStr "~/.oci/config") (PyStr "DEFAULT")
                                 (Some "us-ashburn-1"%string))
              (Some "us-phoenix-1"%string) (PyInt 5) (PyInt 1)
              (mkEngine 5 1 (Some "us-phoenix-1"%string) None None None
                        false 0)
              eq_refl) as [H _].
  exact (H "us-phoenix-1"%string eq_refl).
Defined.

Section CacheWindow.

Variable sign : Z -> result string.

(** The Signing Primitive answers at every instant ... *)
Hypothesis sign_total : forall t, exists s, sign t = Return s.

(** ... and signatures computed at different instants differ. *)
Hypothesis sign_fresh :
  forall t t' s, sign t = Return s -> sign t' = Return s -> t = t'.

(** The timer firings up to [now] leave a cached signature that was computed
    no later than [now], whose refresh is due after [now]; it is the one held
    before when no firing was due, and a later one otherwise. *)
Lemma advance_holds (fuel : nat) :
  forall (e : engine) (c : CachedSignature) (now : Z),
    closed e = false ->
    0 < refresh_ahead e < duration e ->
    holds sign e c ->
    computed_at c <= now ->
    now - (expires_at c - refresh_ahead e) + 1 <= Z.of_nat fuel ->
    exists c',
      holds sign (advance sign fuel e now) c' /\
      computed_at c' <= now /\
      now < expires_at c' - refresh_ahead e /\
      closed (advance sign fuel e now) = false /\
      duration (advance sign fuel e now) = duration e /\
      refresh_ahead (advance sign fuel e now) = refresh_ahead e /\
      (expires_at c - refresh_ahead e <= now ->
       computed_at c < computed_at c') /\
      (now < expires_at c - refresh_ahead e ->
       advance sign fuel e now = e /\ c' = c).
Proof.
  induction fuel as [|k IH]; intros e c now Hc Hr Hh Hp Hf.
  - exists c. simpl. split; [exact Hh |].
    repeat split; try assumption; try reflexivity; try lia.
  - pose proof Hh as Hh0. destruct Hh as [Hcache [Hexp [Hsig Htim]]].
    simpl. rewrite Htim, Hc. simpl. rewrite andb_true_r.
    destruct (expires_at c - refresh_ahead e <=? now) eqn:Due.
    + apply Z.leb_le in Due.
      unfold refresh.
      destruct (sign_total (expires_at c - refresh_ahead e)) as [s Hs].
      rewrite Hs.
      set (f := expires_at c - refresh_ahead e) in *.
      destruct (IH (store e f s) (mkCached s f (f + duration e)) now)
        as [c' [H1 [H2 [H3 [H4 [H5 [H6 [H7 H8]]]]]]]].
      * exact Hc.
      * exact Hr.
      * repeat split; simpl; try reflexivity. exact Hs.
      * exact Due.
      * simpl. lia.
      * exists c'. simpl in *. split; [exact H1 |].
        repeat split; try assumption; try reflexivity; try lia.
        intros _.
        destruct (Z_le_gt_dec (f + duration e - refresh_ahead e) now)
          as [L|G].
        -- specialize (H7 L). lia.
        -- destruct (H8 ltac:(lia)) as [_ ->]. simpl. lia.
    + apply Z.leb_gt in Due.
      exists c. split; [exact Hh0 |].
      repeat split; try assumption; try reflexivity; try lia.
Qed.

Lemma elapse_holds (e : engine) (c : CachedSignature) (now : Z) :
  closed e = false ->
  0 < refresh_ahead e < duration e ->
  holds sign e c ->
  computed_at c <= now ->
  exists c',
    holds sign (elapse sign e now) c' /\
    computed_at c' <= now /\
    now < expires_at c' - refresh_ahead e /\
    closed (elapse sign e now) = false /\
    duration (elapse sign e now) = duration e /\
    refresh_ahead (elapse sign e now) = refresh_ahead e /\
    (expires_at c - refresh_ahead e <= now -> computed_at c < computed_at c') /\
    (now < expires_at c - refresh_ahead e ->
     elapse sign e now = e /\ c' = c).
Proof.
  intros Hc Hr Hh Hp. unfold elapse.
  destruct Hh as [Hcache [Hexp [Hsig Htim]]]. rewrite Htim.
  apply advance_holds; try assumption; [repeat split; assumption | lia].
Qed.

(** A call on a live engine with its service URL set returns the value of
    the cache slot it leaves behind, which is not expired and not yet due
    for refresh; the slot is the one held before when no refresh was due in
    the meantime, and one computed later otherwise. *)
Lemma call_settled (e : engine) (clock now : Z) (name : string) :
  settled sign e clock -> clock <= now -> service_url e <> None ->
  exists s c e',
    call sign e (Request name) now = (Return s, e') /\
    settled sign e' now /\
    holds sign e' c /\ value c = s /\
    computed_at c <= now /\
    now < expires_at c - refresh_ahead e /\
    duration e' = duration e /\
    refresh_ahead e' = refresh_ahead e /\
    service_url e' = service_url e /\
    (forall c0, cache e = Some c0 ->
       (expires_at c0 - refresh_ahead e <= now ->
        computed_at c0 < computed_at c) /\
       (now < expires_at c0 - refresh_ahead e -> c = c0 /\ e' = e)).
Proof.
  intros [Hc [Hr Hs]] Hn Hu.
  destruct (service_url e) as [u|] eqn:U; [clear Hu | now elim Hu].
  unfold call, get_authorization_string.
  rewrite elapse_service_url, U.
  destruct (cache e) as [c0|] eqn:C.
  - destruct Hs as [Hh Hp].
    destruct (elapse_holds e c0 now Hc Hr Hh ltac:(lia))
      as [c' [H1 [H2 [H3 [H4 [H5 [H6 [H7 H8]]]]]]]].
    rewrite H4.
    pose proof H1 as [K1 [K2 [K3 K4]]]. rewrite K1.
    replace (now <? expires_at c') with true
      by (symmetry; apply Z.ltb_lt; lia).
    exists (value c'), c', (elapse sign e now).
    split; [reflexivity |]. split.
    { split; [exact H4 |]. split; [rewrite H5, H6; exact Hr |].
      rewrite K1. split; assumption. }
    split; [exact H1 |]. split; [reflexivity |].
    split; [exact H2 |]. split; [exact H3 |].
    split; [exact H5 |]. split; [exact H6 |].
    split; [rewrite elapse_service_url; exact U |].
    intros c1 E. injection E as <-. split; [exact H7 |].
    intros L. destruct (H8 L) as [-> ->]. split; reflexivity.
  - unfold elapse. rewrite Hs, Hc, C.
    destruct (sign_total now) as [s S]. rewrite S.
    exists s, (mkCached s now (now + duration e)), (store e now s).
    split; [reflexivity |]. split.
    { split; [exact Hc |]. split; [exact Hr |]. simpl.
      split; [| lia]. repeat split; simpl; try reflexivity. exact S. }
    split; [repeat split; simpl; try reflexivity; exact S |].
    split; [reflexivity |]. simpl.
    split; [lia |]. split; [lia |].
    split; [reflexivity |]. split; [reflexivity |]. split; [exact U |].
    intros c1 E. discriminate E.
Qed.

(** C7.  On a live engine whose service URL is set, with a Signing Primitive
    that answers and never repeats a signature: a call at [t0] returns a
    signature [s1]; a second call at [t1 >= t0], made before the next
    refresh is due (hence within the cache duration of [s1]), returns [s1]
    again; and a call at [t2], at least [duration - refresh_ahead] after
    [t0], returns a signature different from [s1] that sits in the cache
    slot and expires after [t2]. *)
Theorem same_window_same_signature_then_refreshed
    (e : engine) (clock t0 t1 t2 : Z) (n0 n1 n2 : string) :
  settled sign e clock -> service_url e <> None -> clock <= t0 ->
  exists s1 e1,
    call sign e (Request n0) t0 = (Return s1, e1) /\
    (t0 <= t1 ->
     (forall f, timer e1 = Some f -> t1 < f) ->
     t1 < t0 + duration e /\
     fst (call sign e1 (Request n1) t1) = Return s1) /\
    (t0 + (duration e - refresh_ahead e) <= t2 ->
     exists s2 e2 c2,
       call sign e1 (Request n2) t2 = (Return s2, e2) /\
       s2 <> s1 /\
       cache e2 = Some c2 /\ value c2 = s2 /\ t2 < expires_at c2).
Proof.
  intros Hs Hu Hn.
  pose proof Hs as [_ [Hr _]].
  destruct (call_settled e clock t0 n0 Hs Hn Hu)
    as [s1 [c1 [e1 [E1 [S1 [H1 [V1 [P1 [N1 [D1 [R1 [U1 _]]]]]]]]]]]].
  exists s1, e1. split; [exact E1 |].
  pose proof H1 as [K1 [K2 [K3 K4]]].
  assert (Hu1 : service_url e1 <> None) by (rewrite U1; exact Hu).
  split.
  - intros L Hno. specialize (Hno _ K4).
    split; [rewrite <- D1; lia |].
    destruct (call_settled e1 t0 t1 n1 S1 L Hu1)
      as [s [c [e' [E [_ [_ [V [_ [_ [_ [_ [_ Hc]]]]]]]]]]]].
    rewrite E. simpl.
    destruct (Hc c1 K1) as [_ Same].
    destruct (Same Hno) as [-> _]. rewrite V in V1. now rewrite V1.
  - intros L.
    destruct (call_settled e1 t0 t2 n2 S1 ltac:(lia) Hu1)
      as [s2 [c2 [e2 [E [_ [H2 [V [_ [N2 [_ [_ [_ Hc]]]]]]]]]]]].
    exists s2, e2, c2. split; [exact E |].
    destruct (Hc c1 K1) as [Later _].
    assert (Lt : computed_at c1 < computed_at c2) by (apply Later; lia).
    pose proof H2 as [J1 [J2 [J3 J4]]].
    split.
    + intros Heq.
      assert (Hv : value c2 = value c1) by congruence.
      rewrite Hv in J3.
      pose proof (sign_fresh _ _ _ J3 K3). lia.
    + split; [exact J1 |]. split; [exact V |]. lia.
Qed.

End CacheWindow.

(** [str] of an integer determines the integer. *)
Lemma str_int_inj (a b : Z) : str_int a = str_int b -> a = b.
Proof.
  unfold str_int. intros H. apply DecimalZ.to_int_inj.
  assert (N : forall z, Z.to_int z <> Decimal.Pos Decimal.Nil
                        /\ Z.to_int z <> Decimal.Neg Decimal.Nil).
  { intros [|p|p]; simpl; split; try discriminate;
      intros E; injection E as E;
      exact (DecimalPos.Unsigned.to_uint_nonnil p E). }
  destruct (N a) as [A1 A2], (N b) as [B1 B2].
  pose proof (NilZero.isi _ A1 A2) as Ia.
  pose proof (NilZero.isi _ B1 B2) as Ib.
  rewrite H in Ia. rewrite Ia in Ib. now injection Ib.
Qed.

Lemma sign_instant_total (t : Z) : exists s, sign_instant t = Return s.
Proof. eexists. reflexivity. Qed.

Lemma sign_instant_fresh (t t' : Z) (s : string) :
  sign_instant t = Return s -> sign_instant t' = Return s -> t = t'.
Proof.
  unfold sign_instant. intros H K. rewrite <- H in K.
  injection K as K. apply str_int_inj. symmetry. exact K.
Qed.

(** Every engine the constructor returns is live with nothing cached, and
    stays so when its service URL is set. *)
Lemma construct_settled
    (sign : Z -> result string)
    (src : CredentialSource) (rg : option Region) (dv rv : pyval)
    (e : engine) (url : string) (clock : Z) :
  fst (construct src rg dv rv) = Return e ->
  settled sign e clock /\ settled sign (set_service_url e url) clock /\
  service_url (set_service_url e url) <> None.
Proof.
  unfold construct.
  destruct (validate_source src); simpl; [| discriminate].
  destruct dv as [d| | |]; simpl; try discriminate.
  destruct ((0 <? d) && (d <=? 300)) eqn:D; [| discriminate].
  destruct rv as [r| | |]; simpl; try discriminate.
  destruct ((1 <=? r) && (r <? d)) eqn:R; [| discriminate].
  intros H. injection H as <-.
  apply andb_true_iff in R. destruct R as [R1 R2].
  apply Z.leb_le in R1. apply Z.ltb_lt in R2.
  unfold settled, set_service_url. simpl.
  repeat split; try lia; discriminate.
Qed.

Lemma same_window_same_signature_then_refreshed_witness :
  exists s1 e1,
    call sign_instant
      (mkEngine 5 1 None (Some "http://localhost:8000"%string) None None
                false 0)
      (Request "TableRequest") 0 = (Return s1, e1) /\
    fst (call sign_instant e1 (Request "TableRequest") 2) = Return s1 /\
    exists s2 e2 c2,
      call sign_instant e1 (Request "TableRequest") 6 = (Return s2, e2) /\
      s2 <> s1 /\ cache e2 = Some c2 /\ value c2 = s2 /\ 6 < expires_at c2.
Proof.
  assert (S0 : settled sign_instant
                 (mkEngine 5 1 None (Some "http://localhost:8000"%string)
                           None None false 0) 0).
  { unfold settled. simpl. repeat split; lia. }
  destruct (same_window_same_signature_then_refreshed
              sign_instant sign_instant_total sign_instant_fresh
              (mkEngine 5 1 None (Some "http://localhost:8000"%string)
                        None None false 0)
              0 0 2 6 "TableRequest" "TableRequest" "TableRequest"
              S0 ltac:(discriminate) ltac:(lia))
    as [s1 [e1 [E [A B]]]].
  exists s1, e1. split; [exact E |].
  vm_compute in E. injection E as <- <-.
  split.
  - apply A; [lia |]. intros f F. injection F as <-. lia.
  - apply B. simpl. lia.
Defined.

(** * Further properties of [exception.py] *)

(** ** The class hierarchy *)


(** X2.  Being retryable is inherited: when [ok_to_retry()] returns true on
    an object, it returns true on every object of a subclass of its class. *)
Theorem ok_to_retry_inherited (e e' : exn) :
  issubclass (class_of e') (class_of e) = true ->
  ok_to_retry e = Return true ->
  ok_to_retry e' = Return true.
Proof.
  destruct e as [k ? ? ? ?], e' as [k' ? ? ? ?].
  cbn [class_of]. intros S R.
  destruct k; vm_compute in R; try discriminate R;
    destruct k'; vm_compute in S; try discriminate S; reflexivity.
Qed.

Lemma ok_to_retry_inherited_witness :
  ok_to_retry (new ReadThrottlingException "read limit exceeded")
  = Return true.
Proof.
  apply (ok_to_retry_inherited (new RetryableException "retry")
           (new ReadThrottlingException "read limit exceeded"));
    reflexivity.
Defined.

(** ** Locations *)

(** X3.  [Location(sl, sc, el, ec)] gives an object exactly when the four
    arguments are non-negative, and then the getters hand back the
    arguments; with a negative argument the assertions fail and
    [AssertionError] is raised. *)
Theorem Location_init_checks (sl sc el ec : Z) :
  (0 <= sl /\ 0 <= sc /\ 0 <= el /\ 0 <= ec ->
   exists l,
     Location_init sl sc el ec = Return l /\
     get_start_line l = sl /\ get_start_column l = sc /\
     get_end_line l = el /\ get_end_column l = ec) /\
  (~ (0 <= sl /\ 0 <= sc /\ 0 <= el /\ 0 <= ec) ->
   exists err,
     Location_init sl sc el ec = Raise err /\
     class_of err = AssertionError).
Proof.
  unfold Location_init.
  destruct ((sl >=? 0) && (sc >=? 0) && (el >=? 0) && (ec >=? 0)) eqn:B.
  - split.
    + intros _. eexists. repeat split.
    + intros N. exfalso. apply N.
      repeat (apply andb_true_iff in B; destruct B as [B ?]). lia.
  - split.
    + intros [A [A' [A'' A''']]].
      assert (T : (sl >=? 0) && (sc >=? 0) && (el >=? 0) && (ec >=? 0) = true).
      { repeat (apply andb_true_iff; split); lia. }
      rewrite T in B. discriminate B.
    + intros _. eexists. split; reflexivity.
Qed.

Lemma Location_init_checks_witness :
  (exists l,
     Location_init 3 14 3 20 = Return l /\
     get_start_line l = 3 /\ get_start_column l = 14 /\
     get_end_line l = 3 /\ get_end_column l = 20) /\
  (exists err,
     Location_init 3 (-1) 3 20 = Raise err /\
     class_of err = AssertionError).
Proof.
  split.
  - apply (Location_init_checks 3 14 3 20). lia.
  - apply (Location_init_checks 3 (-1) 3 20). lia.
Defined.

Lemma all_digits_uint (u : Decimal.uint) :
  all_digits (NilEmpty.string_of_uint u) = true.
Proof. induction u; simpl; auto. Qed.

(** [str(n)] of a non-negative integer is made of digits. *)
Lemma all_digits_str_int (n : Z) : 0 <= n -> all_digits (str_int n) = true.
Proof.
  intros H. unfold str_int. destruct n as [|p|p]; [reflexivity | | lia].
  simpl. unfold NilZero.string_of_uint.
  destruct (Pos.to_uint p); try apply all_digits_uint; reflexivity.
Qed.

(** A run of digits closed by a character that is no digit can be read back
    in one way only. *)
Lemma digits_then_stop (c : ascii) :
  is_digit c = false ->
  forall a a' r r' : string,
    all_digits a = true -> all_digits a' = true ->
    (a ++ String c r)%string = (a' ++ String c r')%string ->
    a = a' /\ r = r'.
Proof.
  intros C. induction a as [|x a IH]; intros [|x' a'] r r' A A' E; simpl in *.
  - injection E as <-. split; reflexivity.
  - injection E as <- _. apply andb_true_iff in A'. destruct A' as [A' _].
    rewrite C in A'. discriminate A'.
  - injection E as -> _. apply andb_true_iff in A. destruct A as [A _].
    rewrite C in A. discriminate A.
  - injection E as <- E.
    apply andb_true_iff in A, A'. destruct A as [_ A], A' as [_ A'].
    destruct (IH a' r r' A A' E) as [-> ->]. split; reflexivity.
Qed.

(** X4.  The rendering of a location tells the location: two locations
    that passed the assertions of the initialiser and render as the same
    string have the same four fields. *)
Theorem Location_str_inj (sl sc el ec sl' sc' el' ec' : Z) (l l' : Location) :
  Location_init sl sc el ec = Return l ->
  Location_init sl' sc' el' ec' = Return l' ->
  Location_str l = Location_str l' ->
  l = l'.
Proof.
  unfold Location_init.
  destruct ((sl >=? 0) && (sc >=? 0) && (el >=? 0) && (ec >=? 0)) eqn:B;
    [| discriminate].
  destruct ((sl' >=? 0) && (sc' >=? 0) && (el' >=? 0) && (ec' >=? 0)) eqn:B';
    [| discriminate].
  intros H H'. injection H as <-. injection H' as <-.
  repeat (apply andb_true_iff in B; destruct B as [B ?]).
  repeat (apply andb_true_iff in B'; destruct B' as [B' ?]).
  unfold Location_str. cbn [start_line start_column end_line end_column].
  intros E.
  apply (digits_then_stop ":"%char eq_refl) in E;
    try (apply all_digits_str_int; lia).
  destruct E as [E1 E].
  apply (digits_then_stop "-"%char eq_refl) in E;
    try (apply all_digits_str_int; lia).
  destruct E as [E2 E].
  apply (digits_then_stop ":"%char eq_refl) in E;
    try (apply all_digits_str_int; lia).
  destruct E as [E3 E4].
  apply str_int_inj in E1, E2, E3, E4. subst. reflexivity.
Qed.

Lemma Location_str_inj_witness :
  mkLocation 3 14 3 20 = mkLocation 3 14 3 20 /\
  Location_str (mkLocation 3 14 3 20) = "3:14-3:20"%string.
Proof.
  split; [| reflexivity].
  apply (Location_str_inj 3 14 3 20 3 14 3 20); reflexivity.
Defined.

(** ** Rendering *)

(** Whatever the class and the chain of causes, [__str__] returns or raises
    [TypeError]. *)
Lemma dunder_str_TypeError :
  forall e : exn,
    (exists v, dunder_str e = Return v) \/
    (exists err, dunder_str e = Raise err /\ class_of err = TypeError).
Proof.
  fix IH 1. intros [k m c t l]. simpl.
  destruct (resolve defines_str k) as [[| | | | |]|];
    try (left; eexists; reflexivity).
  - destruct m as [s|]; simpl.
    + left. eexists. reflexivity.
    + right. eexists. split; reflexivity.
  - destruct m as [s|], (t =? 0); simpl.
    + destruct c as [c'|]; [| left; eexists; reflexivity].
      destruct (IH c') as [[[s'|] H] | [err [H K]]]; rewrite H; simpl.
      * left. eexists. reflexivity.
      * right. eexists. split; reflexivity.
      * right. exists err. split; [reflexivity | exact K].
    + destruct c as [c'|]; [| left; eexists; reflexivity].
      destruct (IH c') as [[[s'|] H] | [err [H K]]]; rewrite H; simpl.
      * left. eexists. reflexivity.
      * right. eexists. split; reflexivity.
      * right. exists err. split; [reflexivity | exact K].
    + destruct c as [c'|]; [| left; eexists; reflexivity].
      destruct (IH c') as [[[s'|] H] | [err [H K]]]; rewrite H; simpl.
      * right. eexists. split; reflexivity.
      * right. eexists. split; reflexivity.
      * right. exists err. split; [reflexivity | exact K].
    + right. eexists. split; reflexivity.
Qed.

Lemma str_outcome (e : exn) :
  (exists s, str e = Return s) \/
  (exists err, str e = Raise err /\ class_of err = TypeError).
Proof.
  unfold str.
  destruct (dunder_str_TypeError e) as [[[s|] H] | [err [H K]]];
    rewrite H; simpl.
  - left. eexists. reflexivity.
  - right. eexists. split; reflexivity.
  - right. exists err. split; [reflexivity | exact K].
Qed.


(** X6.  On an object of a class that derives from
    [IllegalArgumentException], [IllegalStateException] or [NoSQLException],
    [RequestTimeoutException] apart, [str] returns the stored message as it
    is, whatever cause is wrapped. *)
Theorem str_is_the_message (e : exn) (m : string) :
  message e = Some m ->
  issubclass (class_of e) IllegalArgumentException
  || issubclass (class_of e) IllegalStateException
  || issubclass (class_of e) NoSQLException = true ->
  issubclass (class_of e) RequestTimeoutException = false ->
  str e = Return m.
Proof.
  destruct e as [k m' c t l]. cbn [message class_of]. intros -> S T.
  destruct k; vm_compute in S; try discriminate S;
    vm_compute in T; try discriminate T; reflexivity.
Qed.

Lemma str_is_the_message_witness :
  str (AuthenticationException_init "session expired"
         (Some (new SecurityInfoNotReadyException "not ready")))
  = Return "session expired"%string.
Proof.
  apply str_is_the_message; reflexivity.
Defined.



(** X8.  A [RequestTimeoutException] that wraps a cause can be rendered
    exactly when the cause can: a cause whose [str] fails makes [str] of the
    timeout fail with the same exception. *)
Theorem RequestTimeoutException_str_needs_cause
    (msg : string) (t : Z) (c : exn) :
  ((exists s, str (RequestTimeoutException_init msg t (Some c)) = Return s)
   <-> (exists s, str c = Return s)) /\
  (forall err,
     str c = Raise err ->
     str (RequestTimeoutException_init msg t (Some c)) = Raise err).
Proof.
  unfold str, RequestTimeoutException_init. simpl dunder_str.
  destruct (dunder_str c) as [[s|]|x]; destruct (t =? 0); simpl;
    (split;
     [ split; intros [s' H]; try discriminate H; eexists; reflexivity
     | intros err H; try discriminate H; exact H ]).
Qed.

Lemma RequestTimeoutException_str_needs_cause_witness :
  str (RequestTimeoutException_init "Request timed out" 5000
         (Some (IllegalArgumentException_init None None)))
  = Raise (builtin_error TypeError
             "__str__ returned non-string (type NoneType)").
Proof.
  apply (RequestTimeoutException_str_needs_cause "Request timed out" 5000
           (IllegalArgumentException_init None None)).
  reflexivity.
Defined.

(** ** Conversion and accessors *)

(** X9.  The [IllegalArgumentException] raised by [get_illegal_argument]
    is not wrapped: it carries no cause and no location, whatever the
    [QueryException] carried; and the only other exceptions the call can
    raise are [TypeError], from the rendering, and [AttributeError], on an
    object that is no [QueryException]. *)
Theorem get_illegal_argument_not_wrapped (q x : exn) :
  get_illegal_argument q = Raise x ->
  (class_of x = IllegalArgumentException /\
   issubclass (class_of q) QueryException = true /\
   get_cause x = Return None /\ location x = None /\
   str q = str x) \/
  (class_of x = TypeError /\ str q = Raise x) \/
  (class_of x = AttributeError /\
   issubclass (class_of q) QueryException = false).
Proof.
  unfold get_illegal_argument.
  destruct (issubclass (class_of q) QueryException) eqn:S.
  - destruct (str_outcome q) as [[s H] | [err [H K]]];
      rewrite H; simpl; intros E; injection E as <-.
    + left. repeat split; reflexivity.
    + right. left. split; [exact K | reflexivity].
  - intros E. injection E as <-. right. right. split; reflexivity.
Qed.

Lemma get_illegal_argument_not_wrapped_witness :
  get_cause
    (IllegalArgumentException_init (Some "Error: at (3, 14) bad token") None)
  = Return None.
Proof.
  destruct (get_illegal_argument_not_wrapped
              (QueryException_init (Some "bad token")
                 (Some (new SystemException "plan failed"))
                 (Some (mkLocation 3 14 3 20)))
              (IllegalArgumentException_init
                 (Some "Error: at (3, 14) bad token") None)
              eq_refl) as [[_ [_ [H _]]] | [[H _] | [H _]]].
  - exact H.
  - discriminate H.
  - discriminate H.
Defined.

(** X10.  Among located [QueryException]s with a string message, the
    rendering tells the message and the start of the location and nothing
    more: two of them render alike exactly when their messages, start lines
    and start columns agree; the end of the location and the cause never
    show. *)
Theorem QueryException_str_tells_start_and_message
    (m m' : string) (c c' : option exn)
    (sl sc el ec sl' sc' el' ec' : Z) (l l' : Location) :
  Location_init sl sc el ec = Return l ->
  Location_init sl' sc' el' ec' = Return l' ->
  (str (QueryException_init (Some m) c (Some l))
   = str (QueryException_init (Some m') c' (Some l'))
   <-> m = m' /\ sl = sl' /\ sc = sc').
Proof.
  unfold Location_init.
  destruct ((sl >=? 0) && (sc >=? 0) && (el >=? 0) && (ec >=? 0)) eqn:B;
    [| discriminate].
  destruct ((sl' >=? 0) && (sc' >=? 0) && (el' >=? 0) && (ec' >=? 0)) eqn:B';
    [| discriminate].
  intros H H'. injection H as <-. injection H' as <-.
  repeat (apply andb_true_iff in B; destruct B as [B ?]).
  repeat (apply andb_true_iff in B'; destruct B' as [B' ?]).
  rewrite !str_QueryException. unfold location_text.
  cbn [start_line start_column].
  split.
  - intros E. injection E as E. rewrite !append_assoc in E. simpl in E.
    apply (digits_then_stop ","%char eq_refl) in E;
      try (apply all_digits_str_int; lia).
    destruct E as [E1 E]. injection E as E.
    rewrite !append_assoc in E. simpl in E.
    apply (digits_then_stop ")"%char eq_refl) in E;
      try (apply all_digits_str_int; lia).
    destruct E as [E2 E]. injection E as E.
    apply str_int_inj in E1, E2. repeat split; assumption.
  - intros [-> [-> ->]]. reflexivity.
Qed.

Lemma QueryException_str_tells_start_and_message_witness :
  str (QueryException_init (Some "bad token") None
         (Some (mkLocation 3 14 3 20)))
  = str (QueryException_init (Some "bad token")
           (Some (new SystemException "plan failed"))
           (Some (mkLocation 3 14 7 1))).
Proof.
  apply (QueryException_str_tells_start_and_message
           "bad token" "bad token" None
           (Some (new SystemException "plan failed"))
           3 14 3 20 3 14 7 1); [reflexivity | reflexivity |].
  repeat split.
Defined.

(** X11.  A located [QueryException] renders exactly as an unlocated one
    whose message spells the location out, so the rendering alone does not
    tell whether a location was attached. *)
Theorem QueryException_str_location_or_message
    (m : string) (c c' : option exn) (l : Location) :
  str (QueryException_init (Some m) c (Some l))
  = str (QueryException_init
           (Some ("at (" ++ str_int (get_start_line l) ++ ", "
                         ++ str_int (get_start_column l) ++ ") " ++ m)%string)
           c' None).
Proof.
  rewrite !str_QueryException. unfold location_text.
  unfold get_start_line, get_start_column.
  rewrite !append_assoc. reflexivity.
Qed.

(** X12.  The accessors hand back what the constructor was given:
    [get_cause] on the five classes whose constructor takes a cause,
    [get_timeout_ms] on a [RequestTimeoutException], [get_location] on a
    [QueryException]; a [QueryException] stores a cause as well but has no
    [get_cause], and the call raises [AttributeError]. *)
Theorem accessors_round_trip
    (m : string) (om : option string) (c : option exn) (t : Z)
    (l : option Location) :
  get_cause (IllegalArgumentException_init om c) = Return c /\
  get_cause (IllegalStateException_init IllegalStateException om c)
  = Return c /\
  get_cause (NoSQLException_init NoSQLException m c) = Return c /\
  get_cause (AuthenticationException_init m c) = Return c /\
  get_cause (RequestTimeoutException_init m t c) = Return c /\
  get_timeout_ms (RequestTimeoutException_init m t c) = Return t /\
  get_location (QueryException_init om c l) = Return l /\
  cause (QueryException_init om c l) = c /\
  (exists err,
     get_cause (QueryException_init om c l) = Raise err /\
     class_of err = AttributeError).
Proof.
  repeat split. eexists. split; reflexivity.
Qed.

(** X13.  An object of a class whose constructor takes the message alone
    never carries a cause: [get_cause()] returns [None]; and, but for
    [QueryStateException] with its fixed prefix, [str] gives the message
    back. *)
Theorem message_only_classes_have_no_cause (k : cls) (m : string) :
  In k message_only_classes ->
  class_of (new k m) = k /\
  get_cause (new k m) = Return None /\
  (k <> QueryStateException -> str (new k m) = Return m) /\
  (k = QueryStateException ->
   str (new k m)
   = Return ("Unexpected state in query engine:" ++ nl ++ m)%string).
Proof.
  intros I.
  repeat (destruct I as [<- | I];
          [repeat split; try reflexivity; try discriminate;
           intros N; now elim N |]).
  destruct I.
Qed.

Lemma message_only_classes_have_no_cause_witness :
  get_cause (new TableNotFoundException "no such table") = Return None /\
  str (new TableNotFoundException "no such table")
  = Return "no such table"%string.
Proof.
  destruct (message_only_classes_have_no_cause
              TableNotFoundException "no such table")
    as [_ [H [K _]]].
  - vm_compute. tauto.
  - split; [exact H | apply K; discriminate].
Defined.
